(** * Spotlight cards: a model of [src/components/kokonutui/spotlight-cards.tsx]

    The component is a grid of cards.  Each card keeps three pieces of
    interaction state (two normalized pointer coordinates and the target of
    its glow spring) plus a reference to its DOM element; the container
    keeps the title of the hovered card, or null.  The development embeds
    the event handlers and the render function and proves the properties
    the specification states about them.

    Numbers.  A JavaScript number is modelled as an exact rational, or one
    of the non-finite values NaN, +Infinity, -Infinity.  Rounding to
    binary64 is not modelled, and zero is unsigned (a zero divisor behaves
    as +0, which is what the width and height of a bounding box are). *)

From Stdlib Require Import QArith Lia Lqa.
From stdpp Require Import base option list strings.

Local Open Scope Q_scope.

(** ** JavaScript numbers *)

Inductive number : Type :=
| Num (q : Q)
| Infinity (negative : bool)
| NaN.

Declare Scope number_scope.
Delimit Scope number_scope with num.
Bind Scope number_scope with number.

Definition Qneg_bool (q : Q) : bool := (Qnum q <? 0)%Z.
Definition Qlt_bool (a b : Q) : bool := negb (Qle_bool b a).

Definition nneg (a : number) : number :=
  match a with
  | Num q => Num (- q)
  | Infinity s => Infinity (negb s)
  | NaN => NaN
  end.

Definition nadd (a b : number) : number :=
  match a, b with
  | Num x, Num y => Num (x + y)
  | Num _, Infinity s => Infinity s
  | Infinity s, Num _ => Infinity s
  | Infinity s, Infinity t => if Bool.eqb s t then Infinity s else NaN
  | _, _ => NaN
  end.

Definition nsub (a b : number) : number := nadd a (nneg b).

Definition nmul (a b : number) : number :=
  match a, b with
  | Num x, Num y => Num (x * y)
  | Num x, Infinity s =>
      if Qeq_bool x 0 then NaN else Infinity (xorb (Qneg_bool x) s)
  | Infinity s, Num y =>
      if Qeq_bool y 0 then NaN else Infinity (xorb s (Qneg_bool y))
  | Infinity s, Infinity t => Infinity (xorb s t)
  | _, _ => NaN
  end.

Definition ndiv (a b : number) : number :=
  match a, b with
  | Num x, Num y =>
      if Qeq_bool y 0
      then (if Qeq_bool x 0 then NaN else Infinity (Qneg_bool x))
      else Num (x / y)
  | Num _, Infinity _ => Num 0
  | Infinity s, Num y => Infinity (xorb s (Qneg_bool y))
  | _, _ => NaN
  end.

(** [a < b]; every comparison with NaN is false. *)
Definition nlt (a b : number) : bool :=
  match a, b with
  | Num x, Num y => Qlt_bool x y
  | Num _, Infinity s => negb s
  | Infinity s, Num _ => s
  | Infinity s, Infinity t => s && negb t
  | _, _ => false
  end.

Definition ngt (a b : number) : bool := nlt b a.

(** [a === b] on numbers. *)
Definition nstricteq (a b : number) : bool :=
  match a, b with
  | Num x, Num y => Qeq_bool x y
  | Infinity s, Infinity t => Bool.eqb s t
  | _, _ => false
  end.

Notation "a + b" := (nadd a b) : number_scope.
Notation "a - b" := (nsub a b) : number_scope.
Notation "a * b" := (nmul a b) : number_scope.
Notation "a / b" := (ndiv a b) : number_scope.
Notation "- a" := (nneg a) : number_scope.
Notation "a <? b" := (nlt a b) : number_scope.
Notation "a >? b" := (ngt a b) (at level 70) : number_scope.
Notation "a === b" := (nstricteq a b) (at level 70) : number_scope.

(** [a <= b]; every comparison with NaN is false. *)
Definition nle (a b : number) : bool :=
  match a, b with
  | Num x, Num y => Qle_bool x y
  | Num _, Infinity s => negb s
  | Infinity s, Num _ => s
  | Infinity s, Infinity t => s || negb t
  | _, _ => false
  end.

Notation "a <=? b" := (nle a b) : number_scope.

(** [lo <= a && a <= hi] *)
Definition between (lo hi a : number) : Prop :=
  (lo <=? a)%num = true /\ (a <=? hi)%num = true.

(** ** Constants *)

Definition TILT_MAX : number := Num 9.

(** ** The motion library's value transform *)

(** Modelled from the spec: the clamping step of [useTransform], which
    keeps a value that compares neither above [max] nor below [min]. *)
Definition clamp (min max v : number) : number :=
  if (v >? max)%num then max else if (v <? min)%num then min else v.

(** Modelled from the spec: how far [value] is through the range from
    [from] to [to], as a fraction; part of [useTransform]. *)
Definition progress (from to value : number) : number :=
  let toFromDifference := (to - from)%num in
  if (toFromDifference === Num 0)%num then Num 1
  else ((value - from) / toFromDifference)%num.

(** Modelled from the spec: the point of the output range at progress [p];
    part of [useTransform]. *)
Definition mixNumber (from to p : number) : number :=
  (from + (to - from) * p)%num.

(** Modelled from the spec: [useTransform] of the motion library, which is
    imported by the component and is not part of src/.  The specification
    describes it as the map from a normalized coordinate to a rotation,
    clamped to a fixed maximum magnitude: the input is clamped to the input
    range and the result is the linear interpolation of the output range at
    the input's progress through the input range. *)
Definition useTransform (value : number) (inputRange outputRange : number * number)
  : number :=
  let (in0, in1) := inputRange in
  let (out0, out1) := outputRange in
  mixNumber out0 out1 (progress in0 in1 (clamp in0 in1 value)).

(** ** Data *)

Definition LucideIcon : Type := string.
Definition Zap : LucideIcon := "Zap".
Definition Lock : LucideIcon := "Lock".
Definition Globe : LucideIcon := "Globe".
Definition Code : LucideIcon := "Code".
Definition Cpu : LucideIcon := "Cpu".
Definition Cloud : LucideIcon := "Cloud".

Record SpotlightItem : Type := {
  icon : LucideIcon;
  title : string;
  description : string;
  color : string
}.

Definition DEFAULT_ITEMS : list SpotlightItem := [
  {| icon := Zap;
     title := "Instant";
     description :=
       "Sub-100ms latency on every request, globally distributed across every region.";
     color := "#f59e0b" |};
  {| icon := Lock;
     title := "Secure";
     description :=
       "Zero-trust by default. SOC 2 certified with end-to-end encryption throughout.";
     color := "#60a5fa" |};
  {| icon := Globe;
     title := "Global";
     description :=
       "Edge-deployed to 300+ locations. Your users always hit a nearby server.";
     color := "#34d399" |};
  {| icon := Code;
     title := "Developer first";
     description :=
       "Type-safe SDKs in five languages, a complete REST API, and honest docs.";
     color := "#a78bfa" |};
  {| icon := Cpu;
     title := "Scalable";
     description :=
       "From side project to Series B without touching your infrastructure config.";
     color := "#38bdf8" |};
  {| icon := Cloud;
     title := "Serverless";
     description :=
       "No servers to provision, patch, or babysit. Just deploy and move on.";
     color := "#f472b6" |}
].

(** ** The DOM as the handlers see it

    An [HTMLDivElement] stands for the element with the box it has when it
    is measured.  The box of a live element changes with the layout of the
    page and with the card's own scale and tilt; the model does not follow
    those changes between two events, and a new box arrives only with the
    ref event that installs another element. *)

Record DOMRect : Type := {
  left : number;
  top : number;
  width : number;
  height : number
}.

Record HTMLDivElement : Type := {
  getBoundingClientRect : DOMRect
}.

Record MouseEvent : Type := {
  clientX : number;
  clientY : number
}.

(** ** State

    [CardState] is what the hooks of one [Card] instance hold: the ref to
    its element (null until the element is attached), the two motion
    values and the target of the glow spring.  [World] is the state of one
    mounted [SpotlightCards]: the [useState] cell of the container, the
    hook state of each card by position in the grid, and the number of
    times a bounding box has been measured. *)

Record CardState : Type := {
  cardRef : option HTMLDivElement;
  normX : number;
  normY : number;
  glowOpacity : number
}.

Record World : Type := {
  hoveredTitle : option string;
  cards : list CardState;
  layoutReads : nat
}.

Definition set_normX (v : number) (c : CardState) : CardState :=
  {| cardRef := cardRef c; normX := v; normY := normY c;
     glowOpacity := glowOpacity c |}.

Definition set_normY (v : number) (c : CardState) : CardState :=
  {| cardRef := cardRef c; normX := normX c; normY := v;
     glowOpacity := glowOpacity c |}.

Definition set_glowOpacity (v : number) (c : CardState) : CardState :=
  {| cardRef := cardRef c; normX := normX c; normY := normY c;
     glowOpacity := v |}.

Definition set_cardRef (r : option HTMLDivElement) (c : CardState) : CardState :=
  {| cardRef := r; normX := normX c; normY := normY c;
     glowOpacity := glowOpacity c |}.

Definition with_cards (f : list CardState -> list CardState) (w : World) : World :=
  {| hoveredTitle := hoveredTitle w; cards := f (cards w);
     layoutReads := layoutReads w |}.

(** ** Handlers as state transformers *)

Definition M (A : Type) : Type := World -> A * World.

#[global] Instance M_ret : MRet M := fun A (a : A) w => (a, w).
#[global] Instance M_bind : MBind M :=
  fun A B (k : A -> M B) (m : M A) w => let (a, w') := m w in k a w'.

(** The state a handler leaves behind. *)
Definition exec {A} (m : M A) (w : World) : World := snd (m w).

(** [setHoveredTitle(t)] *)
Definition setHoveredTitle (t : option string) : M unit :=
  fun w => (tt, {| hoveredTitle := t; cards := cards w;
                   layoutReads := layoutReads w |}).

(** [cardRef.current] of the card in grid position [slot] *)
Definition cardRef_current (slot : nat) : M (option HTMLDivElement) :=
  fun w => (cards w !! slot ≫= cardRef, w).

(** [el.getBoundingClientRect()] *)
Definition measure (el : HTMLDivElement) : M DOMRect :=
  fun w => (getBoundingClientRect el,
            {| hoveredTitle := hoveredTitle w; cards := cards w;
               layoutReads := S (layoutReads w) |}).

(** [normX.set(v)], [normY.set(v)], [glowOpacity.set(v)] *)
Definition normX_set (slot : nat) (v : number) : M unit :=
  fun w => (tt, with_cards (alter (set_normX v) slot) w).
Definition normY_set (slot : nat) (v : number) : M unit :=
  fun w => (tt, with_cards (alter (set_normY v) slot) w).
Definition glowOpacity_set (slot : nat) (v : number) : M unit :=
  fun w => (tt, with_cards (alter (set_glowOpacity v) slot) w).

(** ** Card *)

Record CardProps : Type := {
  item : SpotlightItem;
  dimmed : bool;
  onHoverStart : M unit;
  onHoverEnd : M unit
}.

(** The two derived motion values. *)
Definition rawRotateX (c : CardState) : number :=
  useTransform (normY c) (Num 0, Num 1) (TILT_MAX, (- TILT_MAX)%num).
Definition rawRotateY (c : CardState) : number :=
  useTransform (normX c) (Num 0, Num 1) ((- TILT_MAX)%num, TILT_MAX).

Definition handleMouseMove (slot : nat) (e : MouseEvent) : M unit :=
  el ← cardRef_current slot;
  match el with
  | None => mret tt
  | Some el =>
      rect ← measure el;
      normX_set slot ((clientX e - left rect) / width rect)%num;;
      normY_set slot ((clientY e - top rect) / height rect)%num
  end.

Definition handleMouseEnter (slot : nat) (props : CardProps) : M unit :=
  glowOpacity_set slot (Num 1);;
  onHoverStart props.

Definition handleMouseLeave (slot : nat) (props : CardProps) : M unit :=
  normX_set slot (Num 0.5);;
  normY_set slot (Num 0.5);;
  glowOpacity_set slot (Num 0);;
  onHoverEnd props.

(** What a [Card] renders: the animation targets of its root element, the
    three handlers bound to it, and its text. *)
Record MotionDiv : Type := {
  animate_scale : number;
  animate_opacity : number;
  onMouseEnter : M unit;
  onMouseLeave : M unit;
  onMouseMove : MouseEvent -> M unit;
  h3 : string;
  p : string
}.

Definition Card (slot : nat) (props : CardProps) : MotionDiv :=
  {| animate_scale := if dimmed props then Num 0.96 else Num 1;
     animate_opacity := if dimmed props then Num 0.5 else Num 1;
     onMouseEnter := handleMouseEnter slot props;
     onMouseLeave := handleMouseLeave slot props;
     onMouseMove := handleMouseMove slot;
     h3 := title (item props);
     p := description (item props) |}.

(** The hook state of a card at its first render: [useRef(null)],
    [useMotionValue(0.5)] twice and [useSpring(0, GLOW_SPRING)]. *)
Definition initialCard : CardState :=
  {| cardRef := None; normX := Num 0.5; normY := Num 0.5;
     glowOpacity := Num 0 |}.

(** ** SpotlightCards *)

Record SpotlightCardsProps : Type := {
  items : option (list SpotlightItem);
  eyebrow : option string;
  heading : option string;
  className : option string
}.

(** A [<Card key=... {...props} />] element of the grid. *)
Record CardElement : Type := {
  key : string;
  cardProps : CardProps
}.

Record Rendered : Type := {
  root_className : string;
  eyebrow_text : string;
  heading_text : string;
  grid : list CardElement
}.

(** [a !== b] on [string | null]. *)
Definition strict_ne (a b : option string) : bool := negb (bool_decide (a = b)).

(** Events the browser and React deliver to a mounted component: the three
    pointer events on the card in a grid position, and React attaching or
    detaching the element of a card's ref. *)
Inductive Event : Type :=
| MouseEnter (slot : nat)
| MouseLeave (slot : nat)
| MouseMove (slot : nat) (e : MouseEvent)
| RefAttach (slot : nat) (el : option HTMLDivElement).

Section Component.

(** The class-name combinator of [@/lib/utils], which is not part of src/. *)
Variable cn : list (option string) -> string.

Definition SpotlightCards (props : SpotlightCardsProps) (w : World) : Rendered :=
  let items := default DEFAULT_ITEMS (items props) in
  let eyebrow := default "Features" (eyebrow props) in
  let heading := default "Everything you need" (heading props) in
  let className := className props in
  let hoveredTitle := hoveredTitle w in
  {| root_className :=
       cn [Some "relative w-full overflow-hidden rounded-2xl px-8 pt-9 pb-10";
           Some "bg-white dark:bg-[#06060f]";
           className];
     eyebrow_text := eyebrow;
     heading_text := heading;
     grid :=
       map (fun item =>
              {| key := title item;
                 cardProps :=
                   {| dimmed := strict_ne hoveredTitle None
                                && strict_ne hoveredTitle (Some (title item));
                      item := item;
                      onHoverEnd := setHoveredTitle None;
                      onHoverStart := setHoveredTitle (Some (title item)) |} |})
           items |}.

(** ** The mounted component as a transition system *)

(** The state right after the first render: nothing hovered, one fresh card
    state per item, no element attached yet. *)
Definition mount (props : SpotlightCardsProps) : World :=
  {| hoveredTitle := None;
     cards := replicate (length (default DEFAULT_ITEMS (items props))) initialCard;
     layoutReads := 0 |}.

(** The card rendered in a grid position, with its handlers. *)
Definition cardAt (props : SpotlightCardsProps) (w : World) (slot : nat)
  : option MotionDiv :=
  el ← grid (SpotlightCards props w) !! slot;
  Some (Card slot (cardProps el)).

Definition dispatch (props : SpotlightCardsProps) (ev : Event) (w : World) : World :=
  match ev with
  | MouseEnter slot =>
      match cardAt props w slot with
      | Some card => exec (onMouseEnter card) w
      | None => w
      end
  | MouseLeave slot =>
      match cardAt props w slot with
      | Some card => exec (onMouseLeave card) w
      | None => w
      end
  | MouseMove slot e =>
      match cardAt props w slot with
      | Some card => exec (onMouseMove card e) w
      | None => w
      end
  | RefAttach slot el => with_cards (alter (set_cardRef el) slot) w
  end.

Definition run (props : SpotlightCardsProps) (evs : list Event) (w : World) : World :=
  foldl (fun w ev => dispatch props ev w) w evs.

End Component.

(** ** Notions the properties are stated with *)

(** The element the grid holds for an item when the container's state is
    [h]. *)
Definition cardFor (h : option string) (it : SpotlightItem) : CardElement :=
  {| key := title it;
     cardProps :=
       {| item := it;
          dimmed := strict_ne h None && strict_ne h (Some (title it));
          onHoverStart := setHoveredTitle (Some (title it));
          onHoverEnd := setHoveredTitle None |} |}.



(** ** Sample inputs *)

(** A class-name combinator to run the model with: it joins the classes
    that are present. *)
Definition join_classes (classes : list (option string)) : string :=
  String.concat " " (omap id classes).

Definition no_props : SpotlightCardsProps :=
  {| items := None; eyebrow := None; heading := None; className := None |}.

Definition box : HTMLDivElement :=
  {| getBoundingClientRect :=
       {| left := Num 10; top := Num 20; width := Num 100; height := Num 50 |} |}.

(** The pointer enters the second default card and moves to (35, 45). *)
Definition over_second_card : World :=
  run join_classes no_props
    [RefAttach 1 (Some box); MouseEnter 1;
     MouseMove 1 {| clientX := Num 35; clientY := Num 45 |}]
    (mount no_props).

(** A caller's list in which two items share the title "Fast". *)
Definition twins : SpotlightCardsProps :=
  {| items :=
       Some [ {| icon := Zap; title := "Fast"; description := "Low latency.";
                 color := "#f59e0b" |};
              {| icon := Cpu; title := "Fast"; description := "High throughput.";
                 color := "#38bdf8" |};
              {| icon := Lock; title := "Safe"; description := "Encrypted.";
                 color := "#60a5fa" |} ];
     eyebrow := Some "Why";
     heading := None;
     className := Some "mt-4" |}.


(** ** The life of a mounted component

    Between events the caller may render the component again with other
    props.  The [useState] cell of the container belongs to the mounted
    instance and lives on across such a render, and React hands each card
    of the new render its hook state: the state kept for a card whose key
    survives, a fresh one for a new key.  Which card states survive is
    React's reconciliation; a re-render step carries them as given. *)


Section Session.

Variable cn : list (option string) -> string.



End Session.

(** ** Notions for the interaction as a whole *)

(** A card at rest: the pointer coordinates at the centre, the glow off. *)
Definition at_rest (c : CardState) : Prop :=
  normX c = Num 0.5 /\ normY c = Num 0.5 /\ glowOpacity c = Num 0.

(** What [handleMouseLeave] makes of a card's state. *)
Definition rested (c : CardState) : CardState :=
  set_glowOpacity (Num 0) (set_normY (Num 0.5) (set_normX (Num 0.5) c)).

(** What [handleMouseMove] makes of a card's state when the ref holds
    [el]. *)
Definition moved (e : MouseEvent) (el : HTMLDivElement) (c : CardState)
  : CardState :=
  let rect := getBoundingClientRect el in
  set_normY ((clientY e - top rect) / height rect)%num
    (set_normX ((clientX e - left rect) / width rect)%num c).

(** One hover gesture over a card: the pointer enters, moves, and leaves. *)
Definition gesture (slot : nat) (moves : list MouseEvent) : list Event :=
  MouseEnter slot :: (MouseMove slot <$> moves) ++ [MouseLeave slot].

Definition isMouseMove (ev : Event) : bool :=
  match ev with MouseMove _ _ => true | _ => false end.

Definition isRefAttach (ev : Event) : bool :=
  match ev with RefAttach _ _ => true | _ => false end.

(** [Number.isFinite(a)] *)
Definition isFinite (a : number) : bool :=
  match a with Num _ => true | _ => false end.

(** * Properties *)

(** ** The tilt mapping *)

Lemma between_Num (lo hi q : Q) :
  between (Num lo) (Num hi) (Num q) <-> lo <= q /\ q <= hi.
Proof.
  unfold between; simpl. rewrite !Qle_bool_iff. tauto.
Qed.

Lemma clamp_unit (q : Q) :
  0 <= q -> q <= 1 -> clamp (Num 0) (Num 1) (Num q) = Num q.
Proof.
  intros H0 H1. unfold clamp, ngt, nlt, Qlt_bool.
  apply Qle_bool_iff in H0, H1. now rewrite H0, H1.
Qed.

(** The interpolation step at a finite progress value is the straight line
    from [out0] to [out1]. *)
Lemma interpolate_unit (q out0 out1 : Q) :
  exists r, mixNumber (Num out0) (Num out1) (progress (Num 0) (Num 1) (Num q)) = Num r
            /\ r == out0 + (out1 - out0) * q.
Proof.
  eexists; split; [reflexivity|]. field.
Qed.

Lemma useTransform_unit (q out0 out1 : Q) :
  0 <= q -> q <= 1 ->
  exists r, useTransform (Num q) (Num 0, Num 1) (Num out0, Num out1) = Num r
            /\ r == out0 + (out1 - out0) * q.
Proof.
  intros H0 H1. unfold useTransform. rewrite clamp_unit by assumption.
  apply interpolate_unit.
Qed.

(** Clamping to the unit interval yields a finite value of the interval for
    every input but NaN. *)
Lemma clamp_unit_range (v : number) :
  v <> NaN -> exists q, clamp (Num 0) (Num 1) v = Num q /\ 0 <= q /\ q <= 1.
Proof.
  intros Hv. destruct v as [q | [|] |]; [| | | congruence].
  - unfold clamp, ngt, nlt, Qlt_bool.
    destruct (Qle_bool q 1) eqn:H1; simpl.
    + destruct (Qle_bool 0 q) eqn:H0; simpl.
      * exists q. apply Qle_bool_iff in H0, H1. auto.
      * exists 0. split; [reflexivity | split; lra].
    + exists 1. split; [reflexivity | split; lra].
  - exists 0. split; [reflexivity | split; lra].
  - exists 1. split; [reflexivity | split; lra].
Qed.

Lemma between_tilt (r q : Q) (a b : Q) :
  0 <= q -> q <= 1 -> (a == 9 /\ b == -9) \/ (a == -9 /\ b == 9) ->
  r == a + (b - a) * q ->
  between (- TILT_MAX)%num TILT_MAX (Num r).
Proof.
  intros H0 H1 Hab Hr. apply between_Num.
  destruct Hab as [[Ha Hb] | [Ha Hb]]; rewrite Hr, Ha, Hb; split; lra.
Qed.

(** The mapped rotation never exceeds the maximum tilt, whatever finite or
    infinite coordinate the motion value holds: the transform clamps. *)
Lemma tilt_clamped (v : number) :
  v <> NaN ->
  between (- TILT_MAX)%num TILT_MAX
          (useTransform v (Num 0, Num 1) (TILT_MAX, (- TILT_MAX)%num)) /\
  between (- TILT_MAX)%num TILT_MAX
          (useTransform v (Num 0, Num 1) ((- TILT_MAX)%num, TILT_MAX)).
Proof.
  intros Hv. destruct (clamp_unit_range v Hv) as (q & Hq & H0 & H1).
  unfold useTransform, TILT_MAX; simpl nneg; rewrite Hq. split.
  - destruct (interpolate_unit q 9 (Qopp 9)) as (r & -> & Hr).
    apply (between_tilt r q 9 (Qopp 9) H0 H1); [left; split; reflexivity | exact Hr].
  - destruct (interpolate_unit q (Qopp 9) 9) as (r & -> & Hr).
    apply (between_tilt r q (Qopp 9) 9 H0 H1); [right; split; reflexivity | exact Hr].
Qed.

Lemma between_unit_finite (v : number) :
  between (Num 0) (Num 1) v -> exists q, v = Num q /\ 0 <= q /\ q <= 1.
Proof.
  destruct v as [q | s |]; intros [H0 H1]; simpl in *; try discriminate.
  - exists q. apply Qle_bool_iff in H0, H1. auto.
  - destruct s; discriminate.
Qed.

(** C1. For every pointer position within a card's bounds, that is, for
    normalized coordinates x and y both in [0, 1], the two target rotations
    derived by the tilt mapping lie in [-TILT_MAX, +TILT_MAX] = [-9, +9]. *)
Theorem tilt_within_bounds (c : CardState) :
  between (Num 0) (Num 1) (normX c) ->
  between (Num 0) (Num 1) (normY c) ->
  between (- TILT_MAX)%num TILT_MAX (rawRotateX c) /\
  between (- TILT_MAX)%num TILT_MAX (rawRotateY c).
Proof.
  intros Hx Hy.
  destruct (between_unit_finite _ Hx) as (x & Ex & Hx0 & Hx1).
  destruct (between_unit_finite _ Hy) as (y & Ey & Hy0 & Hy1).
  unfold rawRotateX, rawRotateY, TILT_MAX; simpl nneg. rewrite Ex, Ey. split.
  - destruct (useTransform_unit y 9 (Qopp 9) Hy0 Hy1) as (r & -> & Hr).
    apply (between_tilt r y 9 (Qopp 9) Hy0 Hy1); [left; split; reflexivity | exact Hr].
  - destruct (useTransform_unit x (Qopp 9) 9 Hx0 Hx1) as (r & -> & Hr).
    apply (between_tilt r x (Qopp 9) 9 Hx0 Hx1); [right; split; reflexivity | exact Hr].
Qed.

Lemma tilt_within_bounds_witness :
  let c := {| cardRef := None; normX := Num 0.25; normY := Num 1;
              glowOpacity := Num 1 |} in
  between (- TILT_MAX)%num TILT_MAX (rawRotateX c) /\
  between (- TILT_MAX)%num TILT_MAX (rawRotateY c).
Proof.
  intros c. apply (tilt_within_bounds c); split; reflexivity.
Defined.

(** The bounds are attained at the edges of the card and the centre maps
    to no tilt. *)
Example tilt_at_edges :
  useTransform (Num 0) (Num 0, Num 1) (TILT_MAX, (- TILT_MAX)%num) = Num 9 /\
  useTransform (Num 1) (Num 0, Num 1) (TILT_MAX, (- TILT_MAX)%num) = Num (- 9) /\
  (rawRotateX initialCard === Num 0)%num = true /\
  (rawRotateY initialCard === Num 0)%num = true.
Proof. vm_compute. repeat split. Qed.

(** ** What the handlers do to the state *)

Lemma exec_handleMouseLeave (slot : nat) (props : CardProps) (w : World) :
  exec (handleMouseLeave slot props) w =
  exec (onHoverEnd props)
    (with_cards (alter (set_glowOpacity (Num 0)) slot)
       (with_cards (alter (set_normY (Num 0.5)) slot)
          (with_cards (alter (set_normX (Num 0.5)) slot) w))).
Proof. reflexivity. Qed.

Lemma exec_handleMouseEnter (slot : nat) (props : CardProps) (w : World) :
  exec (handleMouseEnter slot props) w =
  exec (onHoverStart props) (with_cards (alter (set_glowOpacity (Num 1)) slot) w).
Proof. reflexivity. Qed.

Lemma handleMouseMove_null (slot : nat) (e : MouseEvent) (w : World) :
  cards w !! slot ≫= cardRef = None ->
  handleMouseMove slot e w = (tt, w).
Proof.
  intros Href. unfold handleMouseMove, mbind, M_bind, cardRef_current.
  now rewrite Href.
Qed.

Lemma handleMouseMove_attached (slot : nat) (e : MouseEvent) (w : World)
    (el : HTMLDivElement) :
  cards w !! slot ≫= cardRef = Some el ->
  let rect := getBoundingClientRect el in
  exec (handleMouseMove slot e) w =
  {| hoveredTitle := hoveredTitle w;
     cards :=
       alter (set_normY ((clientY e - top rect) / height rect)%num) slot
         (alter (set_normX ((clientX e - left rect) / width rect)%num) slot
            (cards w));
     layoutReads := S (layoutReads w) |}.
Proof.
  intros Href rect. unfold exec, handleMouseMove, mbind, M_bind, cardRef_current.
  now rewrite Href.
Qed.

Lemma exec_setHoveredTitle (t : option string) (w : World) :
  exec (setHoveredTitle t) w =
  {| hoveredTitle := t; cards := cards w; layoutReads := layoutReads w |}.
Proof. reflexivity. Qed.

Section Handlers.

Variable cn : list (option string) -> string.

Lemma grid_eq (props : SpotlightCardsProps) (w : World) :
  grid (SpotlightCards cn props w) =
  cardFor (hoveredTitle w) <$> default DEFAULT_ITEMS (items props).
Proof. reflexivity. Qed.

Lemma grid_lookup (props : SpotlightCardsProps) (w : World) (slot : nat) :
  grid (SpotlightCards cn props w) !! slot =
  cardFor (hoveredTitle w) <$> default DEFAULT_ITEMS (items props) !! slot.
Proof. rewrite grid_eq. apply list_lookup_fmap. Qed.

(** The card in a grid position is the [Card] of the item in that position
    of the list. *)
Lemma cardAt_Some (props : SpotlightCardsProps) (w : World) (slot : nat)
    (card : MotionDiv) :
  cardAt cn props w slot = Some card ->
  exists it,
    default DEFAULT_ITEMS (items props) !! slot = Some it /\
    card = Card slot (cardProps (cardFor (hoveredTitle w) it)).
Proof.
  unfold cardAt. rewrite grid_lookup.
  destruct (default DEFAULT_ITEMS (items props) !! slot) as [it|]; simpl;
    [|discriminate].
  intros [= <-]. exists it. auto.
Qed.

(** C3. For every card and every state, handling a pointer-leave event
    sets that card's normalized coordinates to exactly (0.5, 0.5), sets
    the target of its glow to 0 and clears the hovered title of the
    container to null. *)
Theorem mouse_leave_resets (props : SpotlightCardsProps) (w : World)
    (slot : nat) (card : MotionDiv) (c : CardState) :
  cardAt cn props w slot = Some card ->
  cards w !! slot = Some c ->
  let w' := exec (onMouseLeave card) w in
  w' = dispatch cn props (MouseLeave slot) w /\
  cards w' !! slot =
    Some {| cardRef := cardRef c; normX := Num 0.5; normY := Num 0.5;
            glowOpacity := Num 0 |} /\
  hoveredTitle w' = None.
Proof.
  intros Hcard Hc w'. split; [|split].
  - unfold dispatch. now rewrite Hcard.
  - subst w'. destruct (cardAt_Some _ _ _ _ Hcard) as (it & _ & ->).
    cbn [Card onMouseLeave]. rewrite exec_handleMouseLeave.
    cbn [cardFor cardProps onHoverEnd].
    rewrite exec_setHoveredTitle. cbn [cards with_cards].
    rewrite !list_lookup_alter_eq, Hc. reflexivity.
  - subst w'. destruct (cardAt_Some _ _ _ _ Hcard) as (it & _ & ->).
    reflexivity.
Qed.

Lemma dispatch_MouseMove (props : SpotlightCardsProps) (w : World)
    (slot : nat) (e : MouseEvent) :
  dispatch cn props (MouseMove slot e) w =
  match default DEFAULT_ITEMS (items props) !! slot with
  | Some _ => exec (handleMouseMove slot e) w
  | None => w
  end.
Proof.
  unfold dispatch, cardAt. rewrite grid_lookup.
  now destruct (default DEFAULT_ITEMS (items props) !! slot).
Qed.

(** A field that an update leaves alone reads the same in every card
    after the update is applied in one position. *)
Lemma lookup_alter_proj {B} (proj : CardState -> B) (f : CardState -> CardState)
    (cs : list CardState) (slot j : nat) :
  (forall c, proj (f c) = proj c) ->
  proj <$> alter f slot cs !! j = proj <$> cs !! j.
Proof.
  intros Hf. rewrite list_lookup_alter.
  destruct (decide (slot = j)) as [->|]; [|reflexivity].
  destruct (cs !! j); simpl; [|reflexivity]. now rewrite Hf.
Qed.

(** C4. For every pointer-move event handled while the card's ref holds
    its element, the handler sets x = (clientX - rect.left) / rect.width
    and y = (clientY - rect.top) / rect.height from the element's bounding
    box, and the tilt mapping sends y to the rotation about the x-axis and
    x to the rotation about the y-axis. *)
Theorem mouse_move_normalizes (w : World) (slot : nat) (c : CardState)
    (el : HTMLDivElement) (e : MouseEvent) :
  cards w !! slot = Some c ->
  cardRef c = Some el ->
  let rect := getBoundingClientRect el in
  let x := ((clientX e - left rect) / width rect)%num in
  let y := ((clientY e - top rect) / height rect)%num in
  let w' := exec (handleMouseMove slot e) w in
  exists c',
    cards w' !! slot = Some c' /\
    normX c' = x /\
    normY c' = y /\
    rawRotateX c' = useTransform y (Num 0, Num 1) (TILT_MAX, (- TILT_MAX)%num) /\
    rawRotateY c' = useTransform x (Num 0, Num 1) ((- TILT_MAX)%num, TILT_MAX) /\
    (forall v, rawRotateX (set_normX v c') = rawRotateX c') /\
    (forall v, rawRotateY (set_normY v c') = rawRotateY c').
Proof.
  intros Hc Href rect x y w'.
  assert (Hel : cards w !! slot ≫= cardRef = Some el) by now rewrite Hc.
  subst w'. rewrite (handleMouseMove_attached _ _ _ _ Hel). cbn [cards].
  rewrite !list_lookup_alter_eq, Hc. simpl.
  eexists; split; [reflexivity|]. repeat split.
Qed.

(** C8. If the card's ref is null when a pointer-move event is handled, the
    handler skips the pointer arithmetic: the state is left as it was, the
    normalized coordinates of every card included, and no bounding box is
    measured. *)
Theorem mouse_move_without_ref (w : World) (slot : nat) (e : MouseEvent) :
  cards w !! slot ≫= cardRef = None ->
  let w' := exec (handleMouseMove slot e) w in
  w' = w /\
  (forall j, normX <$> cards w' !! j = normX <$> cards w !! j) /\
  (forall j, normY <$> cards w' !! j = normY <$> cards w !! j) /\
  layoutReads w' = layoutReads w.
Proof.
  intros Href w'. subst w'. unfold exec.
  rewrite (handleMouseMove_null _ _ _ Href). simpl. auto.
Qed.

(** The bounding box is measured exactly when the ref holds an element:
    once then, and not at all when it is null. *)
Lemma mouse_move_measures (w : World) (slot : nat) (e : MouseEvent) :
  layoutReads (exec (handleMouseMove slot e) w) =
  match cards w !! slot ≫= cardRef with
  | Some _ => S (layoutReads w)
  | None => layoutReads w
  end.
Proof.
  destruct (cards w !! slot ≫= cardRef) as [el|] eqn:Href.
  - now rewrite (handleMouseMove_attached _ _ _ _ Href).
  - unfold exec. now rewrite (handleMouseMove_null _ _ _ Href).
Qed.

Lemma mouse_move_frame (w : World) (slot : nat) (e : MouseEvent) :
  let w' := exec (handleMouseMove slot e) w in
  hoveredTitle w' = hoveredTitle w /\
  (forall j, glowOpacity <$> cards w' !! j = glowOpacity <$> cards w !! j) /\
  (forall j, cardRef <$> cards w' !! j = cardRef <$> cards w !! j) /\
  (forall j, j <> slot -> cards w' !! j = cards w !! j) /\
  length (cards w') = length (cards w).
Proof.
  intros w'. subst w'.
  destruct (cards w !! slot ≫= cardRef) as [el|] eqn:Href.
  - rewrite (handleMouseMove_attached _ _ _ _ Href). cbn [hoveredTitle cards].
    repeat split.
    + intros j. now rewrite !lookup_alter_proj.
    + intros j. now rewrite !lookup_alter_proj.
    + intros j Hj. now rewrite !list_lookup_alter_ne.
    + now rewrite !length_alter.
  - unfold exec. rewrite (handleMouseMove_null _ _ _ Href). simpl. auto.
Qed.

Lemma grid_hoveredTitle (props : SpotlightCardsProps) (w w' : World) :
  hoveredTitle w' = hoveredTitle w ->
  grid (SpotlightCards cn props w') = grid (SpotlightCards cn props w).
Proof. intros H. unfold SpotlightCards; simpl. now rewrite H. Qed.

(** C10. A pointer-move event on a card updates only the two normalized
    coordinates of that card: the hovered title of the container, the glow
    target and the ref of every card, the state of every other card and the
    rendered grid (keys, item data, dimmed flags) are as before.  Among all
    events only pointer enter and pointer leave change the hovered title or
    a glow target. *)
Theorem mouse_move_only_coordinates (props : SpotlightCardsProps) (w : World)
    (slot : nat) (e : MouseEvent) :
  let w' := dispatch cn props (MouseMove slot e) w in
  hoveredTitle w' = hoveredTitle w /\
  (forall j, glowOpacity <$> cards w' !! j = glowOpacity <$> cards w !! j) /\
  (forall j, cardRef <$> cards w' !! j = cardRef <$> cards w !! j) /\
  (forall j, j <> slot -> cards w' !! j = cards w !! j) /\
  grid (SpotlightCards cn props w') = grid (SpotlightCards cn props w) /\
  (forall ev,
      hoveredTitle (dispatch cn props ev w) <> hoveredTitle w \/
      (exists j, glowOpacity <$> cards (dispatch cn props ev w) !! j
                 <> glowOpacity <$> cards w !! j) ->
      exists s, ev = MouseEnter s \/ ev = MouseLeave s).
Proof.
  assert (Hmove : forall s ev',
    let w1 := dispatch cn props (MouseMove s ev') w in
    hoveredTitle w1 = hoveredTitle w /\
    (forall j, glowOpacity <$> cards w1 !! j = glowOpacity <$> cards w !! j) /\
    (forall j, cardRef <$> cards w1 !! j = cardRef <$> cards w !! j) /\
    (forall j, j <> s -> cards w1 !! j = cards w !! j)).
  { intros s ev' w1. subst w1. rewrite dispatch_MouseMove.
    destruct (default DEFAULT_ITEMS (items props) !! s); [|auto].
    destruct (mouse_move_frame w s ev') as (H1 & H2 & H3 & H4 & _). auto. }
  intros w'. destruct (Hmove slot e) as (H1 & H2 & H3 & H4).
  repeat split; auto.
  - now apply grid_hoveredTitle.
  - intros ev Hch. destruct ev as [s | s | s ev' | s r]; eauto.
    + exfalso. destruct (Hmove s ev') as (G1 & G2 & _).
      destruct Hch as [Hch | [j Hch]]; [now apply Hch | now apply Hch].
    + exfalso. destruct Hch as [Hch | [j Hch]]; [now apply Hch|].
      apply Hch. simpl. now apply lookup_alter_proj.
Qed.

(** ** The grid and the hovered title *)

Lemma strict_ne_true (a b : option string) : strict_ne a b = true <-> a <> b.
Proof.
  unfold strict_ne. rewrite negb_true_iff, bool_decide_eq_false. tauto.
Qed.

Lemma dimmed_cardFor (h : option string) (it : SpotlightItem) :
  dimmed (cardProps (cardFor h it)) = true <-> h <> None /\ h <> Some (title it).
Proof.
  simpl. rewrite andb_true_iff, !strict_ne_true. tauto.
Qed.

Lemma hoveredTitle_dispatch (props : SpotlightCardsProps) (ev : Event) (w : World) :
  hoveredTitle (dispatch cn props ev w) =
  match ev with
  | MouseEnter slot =>
      match default DEFAULT_ITEMS (items props) !! slot with
      | Some it => Some (title it)
      | None => hoveredTitle w
      end
  | MouseLeave slot =>
      match default DEFAULT_ITEMS (items props) !! slot with
      | Some _ => None
      | None => hoveredTitle w
      end
  | MouseMove _ _ | RefAttach _ _ => hoveredTitle w
  end.
Proof.
  destruct ev as [s | s | s e | s r].
  - unfold dispatch, cardAt. rewrite grid_lookup.
    now destruct (default DEFAULT_ITEMS (items props) !! s).
  - unfold dispatch, cardAt. rewrite grid_lookup.
    now destruct (default DEFAULT_ITEMS (items props) !! s).
  - rewrite dispatch_MouseMove.
    destruct (default DEFAULT_ITEMS (items props) !! s); [|reflexivity].
    apply mouse_move_frame.
  - reflexivity.
Qed.

(** Entering a card lights its glow and makes its title the hovered one. *)
Lemma mouse_enter_hovers (props : SpotlightCardsProps) (w : World) (slot : nat)
    (it : SpotlightItem) (c : CardState) :
  default DEFAULT_ITEMS (items props) !! slot = Some it ->
  cards w !! slot = Some c ->
  let w' := dispatch cn props (MouseEnter slot) w in
  hoveredTitle w' = Some (title it) /\
  cards w' !! slot = Some (set_glowOpacity (Num 1) c).
Proof.
  intros Hit Hc w'. split.
  - subst w'. now rewrite hoveredTitle_dispatch, Hit.
  - subst w'. unfold dispatch, cardAt. rewrite grid_lookup, Hit.
    cbn [fmap option_fmap option_map mbind option_bind Card onMouseEnter].
    rewrite exec_handleMouseEnter. cbn [cardFor cardProps onHoverStart].
    rewrite exec_setHoveredTitle. cbn [cards with_cards].
    now rewrite list_lookup_alter_eq, Hc.
Qed.






(** ** Rendering *)

Lemma grid_items (l : list SpotlightItem) (h : option string) :
  (fun el => item (cardProps el)) <$> (cardFor h <$> l) = l.
Proof.
  induction l as [|it l IH]; [reflexivity|].
  rewrite !fmap_cons. f_equal. exact IH.
Qed.

(** C5. For every caller-supplied item list the component renders exactly
    one card per item, in the order of the list, each keyed by the title of
    its item. *)
Theorem renders_items_in_order (l : list SpotlightItem)
    (eb hd cls : option string) (w : World) :
  let r := SpotlightCards cn
             {| items := Some l; eyebrow := eb; heading := hd;
                className := cls |} w in
  length (grid r) = length l /\
  (fun el => item (cardProps el)) <$> grid r = l /\
  key <$> grid r = title <$> l /\
  (forall i, (fun el => (key el, item (cardProps el))) <$> grid r !! i =
             (fun it => (title it, it)) <$> l !! i).
Proof.
  intros r. subst r. rewrite grid_eq. cbn [items default].
  split; [apply length_fmap|]. split; [|split].
  - apply grid_items.
  - rewrite <- list_fmap_compose. reflexivity.
  - induction l as [|it l IH]; intros [|i]; simpl; auto.
Qed.

Lemma dispatch_no_cards (props : SpotlightCardsProps) (ev : Event) (w : World) :
  default DEFAULT_ITEMS (items props) = [] -> cards w = [] ->
  dispatch cn props ev w = w.
Proof.
  intros Hits Hcs.
  assert (Hnone : forall s, cardAt cn props w s = None).
  { intros s. unfold cardAt. now rewrite grid_lookup, Hits. }
  destruct ev as [s | s | s e | s r]; simpl; rewrite ?Hnone; try reflexivity.
  destruct w as [h cs n]. simpl in Hcs. subst cs. reflexivity.
Qed.

(** C6. With an empty item list the component renders an empty grid: zero
    cards.  Rendering is a total function, so there is no error to raise;
    the header is rendered as usual, no card state is allocated and every
    event leaves the mounted component as it is. *)
Theorem empty_items_empty_grid (eb hd cls : option string) (w : World) :
  let props := {| items := Some []; eyebrow := eb; heading := hd;
                  className := cls |} in
  grid (SpotlightCards cn props w) = [] /\
  length (grid (SpotlightCards cn props w)) = 0%nat /\
  eyebrow_text (SpotlightCards cn props w) = default "Features" eb /\
  heading_text (SpotlightCards cn props w) = default "Everything you need" hd /\
  cards (mount props) = [] /\
  (forall evs, run cn props evs (mount props) = mount props).
Proof.
  intros props. repeat split.
  intros evs. induction evs as [|ev evs IH]; [reflexivity|].
  simpl. rewrite dispatch_no_cards by reflexivity. exact IH.
Qed.

(** C7. The props object has exactly the four optional fields items,
    eyebrow, heading and className.  When items is omitted the six default
    items are rendered; when eyebrow or heading is omitted the texts
    "Features" and "Everything you need" are rendered; a supplied value is
    used as it is; and className is handed on to the class-name combinator
    after the component's own classes. *)
Theorem props_defaults :
  (forall props : SpotlightCardsProps,
     props = {| items := items props; eyebrow := eyebrow props;
                heading := heading props; className := className props |}) /\
  (forall eb hd cls w,
     (fun el => item (cardProps el)) <$>
       grid (SpotlightCards cn {| items := None; eyebrow := eb; heading := hd;
                                  className := cls |} w) = DEFAULT_ITEMS) /\
  DEFAULT_ITEMS <> [] /\
  length DEFAULT_ITEMS = 6%nat /\
  (forall its hd cls w,
     eyebrow_text (SpotlightCards cn {| items := its; eyebrow := None;
                                        heading := hd; className := cls |} w)
     = "Features") /\
  (forall its eb cls w,
     heading_text (SpotlightCards cn {| items := its; eyebrow := eb;
                                        heading := None; className := cls |} w)
     = "Everything you need") /\
  (forall l e h cls w,
     let r := SpotlightCards cn {| items := Some l; eyebrow := Some e;
                                   heading := Some h; className := cls |} w in
     (fun el => item (cardProps el)) <$> grid r = l /\
     eyebrow_text r = e /\ heading_text r = h) /\
  (forall props w,
     root_className (SpotlightCards cn props w) =
     cn [Some "relative w-full overflow-hidden rounded-2xl px-8 pt-9 pb-10";
         Some "bg-white dark:bg-[#06060f]";
         className props]).
Proof.
  split; [now intros []|]. split; [reflexivity|]. split; [discriminate|].
  split; [reflexivity|]. split; [reflexivity|]. split; [reflexivity|].
  split; [|reflexivity].
  intros l e h cls w r. split; [|split; reflexivity].
  apply (grid_items l (hoveredTitle w)).
Qed.

(** C9. The dimmed flag of a card is a function of its title and the
    hovered title only.  If two rendered items share a title, then once the
    pointer has entered the card of one of them neither card is dimmed,
    although only that one card is under the pointer. *)
Theorem duplicate_titles_both_undimmed (props : SpotlightCardsProps)
    (w0 : World) (i j : nat) (a b : SpotlightItem) :
  i <> j ->
  default DEFAULT_ITEMS (items props) !! i = Some a ->
  default DEFAULT_ITEMS (items props) !! j = Some b ->
  title a = title b ->
  let w := dispatch cn props (MouseEnter i) w0 in
  let r := SpotlightCards cn props w in
  hoveredTitle w = Some (title a) /\
  (fun el => dimmed (cardProps el)) <$> grid r !! i = Some false /\
  (fun el => dimmed (cardProps el)) <$> grid r !! j = Some false /\
  (forall w1 el1 el2,
     el1 ∈ grid (SpotlightCards cn props w1) ->
     el2 ∈ grid (SpotlightCards cn props w1) ->
     title (item (cardProps el1)) = title (item (cardProps el2)) ->
     dimmed (cardProps el1) = dimmed (cardProps el2)).
Proof.
  intros Hij Hi Hj Hab w r.
  assert (Hw : hoveredTitle w = Some (title a)).
  { subst w. now rewrite hoveredTitle_dispatch, Hi. }
  assert (Hundim : forall it, title it = title a ->
            dimmed (cardProps (cardFor (hoveredTitle w) it)) = false).
  { intros it Hit. apply not_true_is_false. rewrite dimmed_cardFor, Hw, Hit.
    tauto. }
  split; [exact Hw|]. subst r. rewrite grid_eq, !list_lookup_fmap, Hi, Hj.
  cbn [fmap option_fmap option_map].
  rewrite !Hundim by congruence. repeat split.
  intros w1 el1 el2 H1 H2 Ht. rewrite grid_eq in H1, H2.
  apply list_elem_of_fmap in H1 as (it1 & -> & _).
  apply list_elem_of_fmap in H2 as (it2 & -> & _).
  simpl in *. now rewrite Ht.
Qed.

End Handlers.

(** ** From the pointer position to the tilt *)

(** A pointer inside a box of positive width (or height) has a normalized
    coordinate in the unit interval. *)
Lemma pointer_inside_normalized (x l wd : Q) :
  0 < wd -> l <= x -> x <= l + wd ->
  between (Num 0) (Num 1) ((Num x - Num l) / Num wd)%num.
Proof.
  intros Hwd Hl Hr. unfold nsub, nadd, nneg, ndiv.
  assert (Hz : Qeq_bool wd 0 = false).
  { apply not_true_is_false. rewrite Qeq_bool_iff. lra. }
  rewrite Hz. apply between_Num. split.
  - apply Qle_shift_div_l; lra.
  - apply Qle_shift_div_r; lra.
Qed.

(** X19. Moving the pointer over a card whose element is attached, inside
    the element's bounding box of positive size, stores normalized
    coordinates in [0, 1] and leaves both target rotations within the
    maximum tilt. *)
Lemma pointer_inside_tilt_bounded (w : World) (slot : nat) (c : CardState)
    (el : HTMLDivElement) (x y l t wd ht : Q) :
  cards w !! slot = Some c ->
  cardRef c = Some el ->
  getBoundingClientRect el =
    {| left := Num l; top := Num t; width := Num wd; height := Num ht |} ->
  0 < wd -> 0 < ht -> l <= x <= l + wd -> t <= y <= t + ht ->
  exists c',
    cards (exec (handleMouseMove slot {| clientX := Num x; clientY := Num y |}) w)
      !! slot = Some c' /\
    between (Num 0) (Num 1) (normX c') /\
    between (Num 0) (Num 1) (normY c') /\
    between (- TILT_MAX)%num TILT_MAX (rawRotateX c') /\
    between (- TILT_MAX)%num TILT_MAX (rawRotateY c').
Proof.
  intros Hc Href Hrect Hwd Hht [Hx0 Hx1] [Hy0 Hy1].
  assert (Hel : cards w !! slot ≫= cardRef = Some el) by now rewrite Hc.
  rewrite (handleMouseMove_attached _ _ _ _ Hel), Hrect.
  cbn [cards left top width height clientX clientY].
  rewrite !list_lookup_alter_eq, Hc. cbn [fmap option_fmap option_map].
  eexists; split; [reflexivity|]. cbn [normX normY set_normX set_normY].
  pose proof (pointer_inside_normalized x l wd Hwd Hx0 Hx1) as Hx.
  pose proof (pointer_inside_normalized y t ht Hht Hy0 Hy1) as Hy.
  split; [exact Hx|]. split; [exact Hy|].
  destruct (between_unit_finite _ Hx) as (qx & Ex & _).
  destruct (between_unit_finite _ Hy) as (qy & Ey & _).
  unfold rawRotateX, rawRotateY. cbn [normX normY set_normX set_normY]. split.
  - apply tilt_clamped. rewrite Ey. discriminate.
  - apply tilt_clamped. rewrite Ex. discriminate.
Qed.

(** ** The model on concrete inputs *)

Example over_second_card_state :
  hoveredTitle over_second_card = Some "Secure" /\
  layoutReads over_second_card = 1%nat /\
  (fun c => ((normX c === Num 0.25)%num, (normY c === Num 0.5)%num,
             (glowOpacity c === Num 1)%num))
    <$> cards over_second_card !! 1%nat = Some (true, true, true) /\
  (fun el => (key el, dimmed (cardProps el)))
    <$> grid (SpotlightCards join_classes no_props over_second_card) =
  [("Instant", true); ("Secure", false); ("Global", true);
   ("Developer first", true); ("Scalable", true); ("Serverless", true)].
Proof. vm_compute. repeat split. Qed.

Lemma mouse_leave_resets_witness :
  let w' := dispatch join_classes no_props (MouseLeave 1) over_second_card in
  cards w' !! 1%nat =
    Some {| cardRef := Some box; normX := Num 0.5; normY := Num 0.5;
            glowOpacity := Num 0 |} /\
  hoveredTitle w' = None.
Proof.
  edestruct (mouse_leave_resets join_classes no_props over_second_card 1)
    as (Hd & Hc & Hh).
  - reflexivity.
  - reflexivity.
  - intros w'. subst w'. rewrite <- Hd. split; [exact Hc | exact Hh].
Defined.

Lemma mouse_move_normalizes_witness :
  exists c',
    cards (exec (handleMouseMove 1 {| clientX := Num 70; clientY := Num 30 |})
             over_second_card) !! 1%nat = Some c' /\
    normX c' = ((Num 70 - Num 10) / Num 100)%num /\
    normY c' = ((Num 30 - Num 20) / Num 50)%num.
Proof.
  edestruct mouse_move_normalizes
    with (w := over_second_card) (slot := 1%nat) (el := box)
         (e := {| clientX := Num 70; clientY := Num 30 |})
    as (c' & Hc' & Hx & Hy & _).
  - reflexivity.
  - reflexivity.
  - exists c'. split; [exact Hc' | split; [exact Hx | exact Hy]].
Defined.

Example mouse_move_tilt :
  (fun c => ((rawRotateX c === Num 5.4)%num, (rawRotateY c === Num 1.8)%num))
    <$> cards (exec (handleMouseMove 1 {| clientX := Num 70; clientY := Num 30 |})
                 over_second_card) !! 1%nat
  = Some (true, true).
Proof. vm_compute. reflexivity. Qed.

(** Before React attaches the elements every ref is null. *)
Lemma mouse_move_without_ref_witness :
  exec (handleMouseMove 0 {| clientX := Num 70; clientY := Num 30 |})
    (mount no_props) = mount no_props.
Proof.
  exact (proj1 (mouse_move_without_ref (mount no_props) 0
                  {| clientX := Num 70; clientY := Num 30 |} eq_refl)).
Defined.

Lemma duplicate_titles_both_undimmed_witness :
  let w := dispatch join_classes twins (MouseEnter 0) (mount twins) in
  let r := SpotlightCards join_classes twins w in
  hoveredTitle w = Some "Fast" /\
  (fun el => dimmed (cardProps el)) <$> grid r !! 0%nat = Some false /\
  (fun el => dimmed (cardProps el)) <$> grid r !! 1%nat = Some false.
Proof.
  edestruct (duplicate_titles_both_undimmed join_classes twins (mount twins) 0 1)
    as (Hw & Hi & Hj & _).
  - discriminate.
  - reflexivity.
  - reflexivity.
  - reflexivity.
  - intros w r. split; [exact Hw | split; [exact Hi | exact Hj]].
Defined.

Example twins_rendered :
  let w := dispatch join_classes twins (MouseEnter 0) (mount twins) in
  let r := SpotlightCards join_classes twins w in
  (fun el => (key el, dimmed (cardProps el))) <$> grid r =
    [("Fast", false); ("Fast", false); ("Safe", true)] /\
  eyebrow_text r = "Why" /\
  heading_text r = "Everything you need" /\
  root_className r =
    "relative w-full overflow-hidden rounded-2xl px-8 pt-9 pb-10 bg-white dark:bg-[#06060f] mt-4".
Proof. vm_compute. repeat split. Qed.

(** * Further properties of the handlers and the render function *)

(** ** One event, card by card *)

Section Interaction.

Variable cn : list (option string) -> string.

Lemma dispatch_MouseEnter (props : SpotlightCardsProps) (w : World) (slot : nat) :
  dispatch cn props (MouseEnter slot) w =
  match default DEFAULT_ITEMS (items props) !! slot with
  | Some it =>
      {| hoveredTitle := Some (title it);
         cards := alter (set_glowOpacity (Num 1)) slot (cards w);
         layoutReads := layoutReads w |}
  | None => w
  end.
Proof.
  unfold dispatch, cardAt. rewrite grid_lookup.
  now destruct (default DEFAULT_ITEMS (items props) !! slot).
Qed.

Lemma dispatch_MouseLeave (props : SpotlightCardsProps) (w : World) (slot : nat) :
  dispatch cn props (MouseLeave slot) w =
  match default DEFAULT_ITEMS (items props) !! slot with
  | Some _ =>
      {| hoveredTitle := None;
         cards := alter rested slot (cards w);
         layoutReads := layoutReads w |}
  | None => w
  end.
Proof.
  unfold dispatch, cardAt. rewrite grid_lookup.
  destruct (default DEFAULT_ITEMS (items props) !! slot); [|reflexivity].
  cbn [fmap option_fmap option_map mbind option_bind Card onMouseLeave].
  rewrite exec_handleMouseLeave. cbn [cardFor cardProps onHoverEnd].
  rewrite exec_setHoveredTitle. cbn [cards with_cards layoutReads].
  now rewrite !list_alter_alter_eq.
Qed.

(** X1. A pointer-enter event changes the glow target of its own card and
    the hovered title and nothing else: the coordinates and the ref of
    every card, the whole state of every other card, the number of card
    states and the count of measurements are as before. *)
Theorem mouse_enter_only_glow (props : SpotlightCardsProps) (w : World)
    (slot : nat) :
  let w' := dispatch cn props (MouseEnter slot) w in
  (forall j, normX <$> cards w' !! j = normX <$> cards w !! j) /\
  (forall j, normY <$> cards w' !! j = normY <$> cards w !! j) /\
  (forall j, cardRef <$> cards w' !! j = cardRef <$> cards w !! j) /\
  (forall j, j <> slot -> cards w' !! j = cards w !! j) /\
  length (cards w') = length (cards w) /\
  layoutReads w' = layoutReads w.
Proof.
  intros w'. subst w'. rewrite dispatch_MouseEnter.
  destruct (default DEFAULT_ITEMS (items props) !! slot); [|auto 10].
  cbn [cards layoutReads]. repeat split.
  - intros j. now apply lookup_alter_proj.
  - intros j. now apply lookup_alter_proj.
  - intros j. now apply lookup_alter_proj.
  - intros j Hj. now apply list_lookup_alter_ne.
  - apply length_alter.
Qed.

(** X2. A pointer-leave event touches its own card and the hovered title
    only: the ref of every card, the whole state of every other card, the
    number of card states and the count of measurements are as before. *)
Theorem mouse_leave_only_own_card (props : SpotlightCardsProps) (w : World)
    (slot : nat) :
  let w' := dispatch cn props (MouseLeave slot) w in
  (forall j, cardRef <$> cards w' !! j = cardRef <$> cards w !! j) /\
  (forall j, j <> slot -> cards w' !! j = cards w !! j) /\
  length (cards w') = length (cards w) /\
  layoutReads w' = layoutReads w.
Proof.
  intros w'. subst w'. rewrite dispatch_MouseLeave.
  destruct (default DEFAULT_ITEMS (items props) !! slot); [|auto].
  cbn [cards layoutReads]. repeat split.
  - intros j. now apply lookup_alter_proj.
  - intros j Hj. now apply list_lookup_alter_ne.
  - apply length_alter.
Qed.

(** X3. Entering a card twice in a row, or leaving it twice in a row, is
    the same as doing it once. *)
Theorem enter_leave_idempotent (props : SpotlightCardsProps) (w : World)
    (slot : nat) :
  dispatch cn props (MouseEnter slot) (dispatch cn props (MouseEnter slot) w)
  = dispatch cn props (MouseEnter slot) w /\
  dispatch cn props (MouseLeave slot) (dispatch cn props (MouseLeave slot) w)
  = dispatch cn props (MouseLeave slot) w.
Proof.
  split.
  - rewrite !dispatch_MouseEnter.
    destruct (default DEFAULT_ITEMS (items props) !! slot); [|reflexivity].
    cbn [cards layoutReads]. f_equal.
    rewrite list_alter_alter_eq. now apply list_alter_ext.
  - rewrite !dispatch_MouseLeave.
    destruct (default DEFAULT_ITEMS (items props) !! slot); [|reflexivity].
    cbn [cards layoutReads]. f_equal.
    rewrite list_alter_alter_eq. now apply list_alter_ext.
Qed.

(** X4. After the pointer enters a card, the dimmed flag of every rendered
    card is decided by that card alone, whatever was hovered before: a card
    is dimmed exactly when its title differs from the entered card's. *)
Theorem last_enter_decides_dimming (props : SpotlightCardsProps) (w : World)
    (slot : nat) (it : SpotlightItem) :
  default DEFAULT_ITEMS (items props) !! slot = Some it ->
  let w' := dispatch cn props (MouseEnter slot) w in
  forall el, el ∈ grid (SpotlightCards cn props w') ->
    dimmed (cardProps el)
    = negb (bool_decide (title (item (cardProps el)) = title it)).
Proof.
  intros Hit w' el Hel. subst w'. rewrite dispatch_MouseEnter, Hit in Hel.
  rewrite grid_eq in Hel. cbn [hoveredTitle] in Hel.
  apply list_elem_of_fmap in Hel as (it' & -> & _).
  cbn [cardFor cardProps dimmed item]. unfold strict_ne.
  rewrite (bool_decide_eq_false_2 (Some (title it) = None)) by discriminate.
  cbn [negb andb]. f_equal. apply bool_decide_ext. split; congruence.
Qed.

(** X5. After the pointer leaves a card no rendered card is dimmed,
    whichever card was the hovered one. *)
Theorem leave_undims_all (props : SpotlightCardsProps) (w : World)
    (slot : nat) (it : SpotlightItem) :
  default DEFAULT_ITEMS (items props) !! slot = Some it ->
  let w' := dispatch cn props (MouseLeave slot) w in
  forall el, el ∈ grid (SpotlightCards cn props w') ->
    dimmed (cardProps el) = false.
Proof.
  intros Hit w' el Hel. subst w'. rewrite dispatch_MouseLeave, Hit in Hel.
  rewrite grid_eq in Hel. cbn [hoveredTitle] in Hel.
  now apply list_elem_of_fmap in Hel as (it' & -> & _).
Qed.

(** X6. The card rendered in a grid position shows the title and the
    description of the item in that position, and its animation targets
    are scale 0.96 and opacity 0.5 when some other title is the hovered
    one, scale 1 and opacity 1 otherwise. *)
Theorem card_visuals (props : SpotlightCardsProps) (w : World) (slot : nat)
    (card : MotionDiv) :
  cardAt cn props w slot = Some card ->
  exists it,
    default DEFAULT_ITEMS (items props) !! slot = Some it /\
    h3 card = title it /\
    p card = description it /\
    (animate_scale card, animate_opacity card) =
      match hoveredTitle w with
      | Some t =>
          if decide (t = title it) then (Num 1, Num 1) else (Num 0.96, Num 0.5)
      | None => (Num 1, Num 1)
      end.
Proof.
  intros Hcard. destruct (cardAt_Some _ _ _ _ _ Hcard) as (it & Hit & ->).
  exists it. split; [exact Hit|]. split; [reflexivity|]. split; [reflexivity|].
  cbn [Card animate_scale animate_opacity cardFor cardProps dimmed].
  unfold strict_ne. destruct (hoveredTitle w) as [t|]; [|reflexivity].
  rewrite (bool_decide_eq_false_2 (Some t = None)) by discriminate.
  cbn [negb andb].
  destruct (decide (t = title it)) as [->|Hne].
  - now rewrite bool_decide_eq_true_2.
  - rewrite bool_decide_eq_false_2 by congruence. reflexivity.
Qed.

(** ** Sequences of events *)

Lemma dispatch_MouseMove_cards (props : SpotlightCardsProps) (w : World)
    (slot : nat) (e : MouseEvent) :
  dispatch cn props (MouseMove slot e) w =
  match default DEFAULT_ITEMS (items props) !! slot, cards w !! slot ≫= cardRef with
  | Some _, Some el =>
      {| hoveredTitle := hoveredTitle w;
         cards := alter (moved e el) slot (cards w);
         layoutReads := S (layoutReads w) |}
  | _, _ => w
  end.
Proof.
  rewrite dispatch_MouseMove.
  destruct (default DEFAULT_ITEMS (items props) !! slot); [|reflexivity].
  destruct (cards w !! slot ≫= cardRef) as [el|] eqn:Href.
  - rewrite (handleMouseMove_attached _ _ _ _ Href). cbn zeta.
    now rewrite list_alter_alter_eq.
  - unfold exec. now rewrite (handleMouseMove_null _ _ _ Href).
Qed.

Lemma run_cons (props : SpotlightCardsProps) (ev : Event) (evs : list Event)
    (w : World) :
  run cn props (ev :: evs) w = run cn props evs (dispatch cn props ev w).
Proof. reflexivity. Qed.

Lemma run_app (props : SpotlightCardsProps) (evs1 evs2 : list Event) (w : World) :
  run cn props (evs1 ++ evs2) w = run cn props evs2 (run cn props evs1 w).
Proof. apply foldl_app. Qed.

(** A property of the state that every event of a trace preserves holds
    along the trace. *)
Lemma run_invariant (props : SpotlightCardsProps) (P : World -> Prop)
    (Q : Event -> Prop) (evs : list Event) (w : World) :
  (forall ev w, Q ev -> P w -> P (dispatch cn props ev w)) ->
  Forall Q evs -> P w -> P (run cn props evs w).
Proof.
  intros Hstep Hevs. revert w.
  induction Hevs as [|ev evs Hev _ IH]; intros w Hw; [exact Hw|].
  rewrite run_cons. apply IH. now apply Hstep.
Qed.

Lemma lookup_proj_inv {B} (proj : CardState -> B) (l' l : list CardState)
    (j : nat) (c' : CardState) :
  proj <$> l' !! j = proj <$> l !! j -> l' !! j = Some c' ->
  exists c, l !! j = Some c /\ proj c = proj c'.
Proof.
  intros Hp Hc'. rewrite Hc' in Hp. destruct (l !! j) as [c|]; [|discriminate].
  exists c. split; [reflexivity|]. simpl in Hp. congruence.
Qed.

Lemma glow_dispatch (props : SpotlightCardsProps) (ev : Event) (w : World) :
  (forall j c, cards w !! j = Some c ->
     glowOpacity c = Num 0 \/ glowOpacity c = Num 1) ->
  forall j c, cards (dispatch cn props ev w) !! j = Some c ->
    glowOpacity c = Num 0 \/ glowOpacity c = Num 1.
Proof.
  intros Hw j c'.
  assert (Hkeep : glowOpacity <$> cards (dispatch cn props ev w) !! j
                  = glowOpacity <$> cards w !! j ->
                  cards (dispatch cn props ev w) !! j = Some c' ->
                  glowOpacity c' = Num 0 \/ glowOpacity c' = Num 1).
  { intros Hp Hc'. destruct (lookup_proj_inv _ _ _ _ _ Hp Hc') as (c & Hc & <-).
    eauto. }
  destruct ev as [s | s | s e | s r].
  - rewrite dispatch_MouseEnter.
    destruct (default DEFAULT_ITEMS (items props) !! s); [|apply Hw].
    cbn [cards]. rewrite list_lookup_alter.
    destruct (decide (s = j)) as [->|]; [|apply Hw].
    destruct (cards w !! j); [|discriminate]. intros [= <-]. now right.
  - rewrite dispatch_MouseLeave.
    destruct (default DEFAULT_ITEMS (items props) !! s); [|apply Hw].
    cbn [cards]. rewrite list_lookup_alter.
    destruct (decide (s = j)) as [->|]; [|apply Hw].
    destruct (cards w !! j); [|discriminate]. intros [= <-]. now left.
  - apply Hkeep. rewrite dispatch_MouseMove_cards.
    destruct (default DEFAULT_ITEMS (items props) !! s); [|reflexivity].
    destruct (cards w !! s ≫= cardRef); [|reflexivity].
    now apply lookup_alter_proj.
  - apply Hkeep. now apply lookup_alter_proj.
Qed.

(** X8. In every state reached from mounting the glow target of every card
    is 0 or 1. *)
Theorem glow_is_off_or_on (props : SpotlightCardsProps) (evs : list Event) :
  forall j c, cards (run cn props evs (mount props)) !! j = Some c ->
    glowOpacity c = Num 0 \/ glowOpacity c = Num 1.
Proof.
  apply (run_invariant props
           (fun w => forall j c, cards w !! j = Some c ->
                       glowOpacity c = Num 0 \/ glowOpacity c = Num 1)
           (fun _ => True)).
  - intros ev w _. apply glow_dispatch.
  - apply Forall_forall. auto.
  - intros j c Hc. apply lookup_replicate in Hc as [-> _]. now left.
Qed.

Lemma layoutReads_dispatch (props : SpotlightCardsProps) (ev : Event) (w : World) :
  (layoutReads w <= layoutReads (dispatch cn props ev w)
   /\ layoutReads (dispatch cn props ev w)
      <= layoutReads w + (if isMouseMove ev then 1 else 0))%nat.
Proof.
  destruct ev as [s | s | s e | s r]; cbn [isMouseMove].
  - rewrite dispatch_MouseEnter.
    destruct (default DEFAULT_ITEMS (items props) !! s); simpl; lia.
  - rewrite dispatch_MouseLeave.
    destruct (default DEFAULT_ITEMS (items props) !! s); simpl; lia.
  - rewrite dispatch_MouseMove_cards.
    destruct (default DEFAULT_ITEMS (items props) !! s); [|lia].
    destruct (cards w !! s ≫= cardRef); simpl; lia.
  - simpl. lia.
Qed.

(** X9. The bounding box is measured at most once per pointer-move event
    and by no other event: along any trace the count of measurements never
    decreases and grows by at most the number of pointer-move events. *)
Theorem measurements_bounded_by_moves (props : SpotlightCardsProps)
    (evs : list Event) (w : World) :
  (layoutReads w <= layoutReads (run cn props evs w)
   /\ layoutReads (run cn props evs w)
      <= layoutReads w + length (List.filter isMouseMove evs))%nat.
Proof.
  revert w. induction evs as [|ev evs IH]; intros w; [simpl; lia|].
  rewrite run_cons. destruct (IH (dispatch cn props ev w)) as [IH1 IH2].
  destruct (layoutReads_dispatch props ev w) as [H1 H2].
  cbn [List.filter]. destruct (isMouseMove ev); cbn [length]; lia.
Qed.

Lemma unattached_dispatch (props : SpotlightCardsProps) (ev : Event) (w : World) :
  isRefAttach ev = false ->
  (layoutReads w = 0%nat /\
   forall j c, cards w !! j = Some c ->
     cardRef c = None /\ normX c = Num 0.5 /\ normY c = Num 0.5) ->
  layoutReads (dispatch cn props ev w) = 0%nat /\
  forall j c, cards (dispatch cn props ev w) !! j = Some c ->
    cardRef c = None /\ normX c = Num 0.5 /\ normY c = Num 0.5.
Proof.
  intros Hev [Hreads Hw].
  destruct ev as [s | s | s e | s r]; [| | |discriminate].
  - rewrite dispatch_MouseEnter.
    destruct (default DEFAULT_ITEMS (items props) !! s); [|auto].
    split; [exact Hreads|]. cbn [cards]. intros j c. rewrite list_lookup_alter.
    destruct (decide (s = j)) as [->|]; [|apply Hw].
    destruct (cards w !! j) as [c0|] eqn:Hc0; [|discriminate].
    intros [= <-]. apply (Hw j c0 Hc0).
  - rewrite dispatch_MouseLeave.
    destruct (default DEFAULT_ITEMS (items props) !! s); [|auto].
    split; [exact Hreads|]. cbn [cards]. intros j c. rewrite list_lookup_alter.
    destruct (decide (s = j)) as [->|]; [|apply Hw].
    destruct (cards w !! j) as [c0|] eqn:Hc0; [|discriminate].
    intros [= <-]. destruct (Hw j c0 Hc0) as (Hr & _). auto.
  - rewrite dispatch_MouseMove_cards.
    destruct (default DEFAULT_ITEMS (items props) !! s); [|auto].
    destruct (cards w !! s) as [c0|] eqn:Hc0; [|auto].
    destruct (Hw s c0 Hc0) as (Hr & _). cbn [mbind option_bind]. rewrite Hr. auto.
Qed.

(** X10. Until React attaches an element to a ref, pointer events move
    nothing: along a trace from mounting without ref events every ref is
    null, every card's coordinates are (0.5, 0.5) and no bounding box has
    been measured, however many pointer-move events arrived. *)
Theorem nothing_moves_before_attach (props : SpotlightCardsProps)
    (evs : list Event) :
  Forall (fun ev => isRefAttach ev = false) evs ->
  let w := run cn props evs (mount props) in
  layoutReads w = 0%nat /\
  forall j c, cards w !! j = Some c ->
    cardRef c = None /\ normX c = Num 0.5 /\ normY c = Num 0.5.
Proof.
  intros Hevs w. subst w.
  apply (run_invariant props
           (fun w => layoutReads w = 0%nat /\
              forall j c, cards w !! j = Some c ->
                cardRef c = None /\ normX c = Num 0.5 /\ normY c = Num 0.5)
           (fun ev => isRefAttach ev = false)).
  - intros ev w. apply unattached_dispatch.
  - exact Hevs.
  - split; [reflexivity|]. intros j c Hc.
    apply lookup_replicate in Hc as [-> _]. auto.
Qed.

(** ** Moves and whole gestures *)

Lemma ref_after_alter (f : CardState -> CardState) (cs : list CardState)
    (slot : nat) :
  (forall c, cardRef (f c) = cardRef c) ->
  alter f slot cs !! slot ≫= cardRef = cs !! slot ≫= cardRef.
Proof.
  intros Hf. rewrite list_lookup_alter_eq.
  destruct (cs !! slot); simpl; [apply Hf | reflexivity].
Qed.

(** A run of pointer moves over one card whose element keeps the box it
    has, in closed form: every move measured once. *)
Lemma run_moves (props : SpotlightCardsProps) (slot : nat)
    (es : list MouseEvent) (w : World) :
  run cn props (MouseMove slot <$> es) w =
  match default DEFAULT_ITEMS (items props) !! slot,
        cards w !! slot ≫= cardRef, last es with
  | Some _, Some el, Some e =>
      {| hoveredTitle := hoveredTitle w;
         cards := alter (moved e el) slot (cards w);
         layoutReads := layoutReads w + length es |}
  | _, _, _ => w
  end.
Proof.
  revert w. induction es as [|e es IH]; intros w.
  { simpl. now destruct (default DEFAULT_ITEMS (items props) !! slot),
                        (cards w !! slot ≫= cardRef). }
  rewrite fmap_cons, run_cons, IH, dispatch_MouseMove_cards.
  destruct (default DEFAULT_ITEMS (items props) !! slot) as [it|] eqn:Hit;
    [|now destruct (cards w !! slot ≫= cardRef), (last es)].
  destruct (cards w !! slot ≫= cardRef) as [el|] eqn:Href.
  - cbn [cards hoveredTitle layoutReads].
    rewrite ref_after_alter, Href by reflexivity.
    destruct es as [|e' es'].
    + cbn [last length]. f_equal. lia.
    + rewrite last_cons_cons.
      destruct (last (e' :: es')) as [e''|] eqn:Hlast.
      * f_equal; [|simpl; lia].
        rewrite list_alter_alter_eq. now apply list_alter_ext.
      * apply last_None in Hlast. discriminate.
  - rewrite Href. now destruct (last es), (last (e :: es)).
Qed.

Lemma alter_rested_back (g : CardState -> CardState) (cs : list CardState)
    (slot : nat) (c : CardState) :
  cs !! slot = Some c -> at_rest c ->
  (forall x, cardRef (g x) = cardRef x) ->
  alter rested slot (alter g slot cs) = cs.
Proof.
  intros Hc (Hx & Hy & Hg) Href. rewrite list_alter_alter_eq.
  rewrite (list_alter_ext _ id cs cs slot); [now apply list_alter_id | | reflexivity].
  intros x Hx'. assert (x = c) as -> by congruence.
  unfold rested, set_glowOpacity, set_normY, set_normX, compose; simpl.
  rewrite Href. destruct c; simpl in *. congruence.
Qed.

(** X12. A whole hover gesture is a round trip.  From a state where
    nothing is hovered and the card is at rest, entering the card, moving
    over it any number of times and leaving it restores the hovered title
    and the state of every card; only the count of measurements has grown,
    by one per move when the card is rendered and its ref is attached. *)
Theorem hover_gesture_round_trip (props : SpotlightCardsProps) (w : World)
    (slot : nat) (es : list MouseEvent) (c : CardState) :
  cards w !! slot = Some c ->
  at_rest c ->
  hoveredTitle w = None ->
  run cn props (gesture slot es) w =
  {| hoveredTitle := None;
     cards := cards w;
     layoutReads :=
       layoutReads w +
       match default DEFAULT_ITEMS (items props) !! slot, cardRef c with
       | Some _, Some _ => length es
       | _, _ => 0
       end |}.
Proof.
  intros Hc Hrest Hh. unfold gesture.
  rewrite run_cons, run_app, run_moves, dispatch_MouseEnter.
  destruct (default DEFAULT_ITEMS (items props) !! slot) as [it|] eqn:Hit.
  - cbn [cards hoveredTitle layoutReads].
    rewrite ref_after_alter, Hc by reflexivity. cbn [mbind option_bind].
    destruct (cardRef c) as [el|] eqn:Href.
    + destruct (last es) as [e|] eqn:Hlast.
      * rewrite run_cons, dispatch_MouseLeave, Hit. cbn [run foldl cards layoutReads].
        f_equal. rewrite list_alter_alter_eq.
        now apply (alter_rested_back _ _ _ c).
      * rewrite run_cons, dispatch_MouseLeave, Hit. cbn [run foldl cards layoutReads].
        apply last_None in Hlast as ->. f_equal; [|simpl; lia].
        now apply (alter_rested_back _ _ _ c).
    + rewrite run_cons, dispatch_MouseLeave, Hit. cbn [run foldl cards layoutReads].
      f_equal; [|lia]. now apply (alter_rested_back _ _ _ c).
  - rewrite run_cons, dispatch_MouseLeave, Hit. cbn [run foldl].
    destruct w; simpl in *. subst. f_equal. lia.
Qed.

(** ** Counting dimmed cards *)

Lemma dimmed_count_cardFor (h : option string) (l : list SpotlightItem) :
  length (filter (fun el => dimmed (cardProps el) = true) (cardFor h <$> l)) =
  match h with
  | Some t => length (filter (fun it => title it <> t) l)
  | None => 0%nat
  end.
Proof.
  induction l as [|a l IH]; [now destruct h|].
  rewrite fmap_cons, filter_cons.
  destruct h as [t|].
  - rewrite filter_cons.
    destruct (decide (dimmed (cardProps (cardFor (Some t) a)) = true)) as [Hd|Hd];
      rewrite dimmed_cardFor in Hd.
    + rewrite decide_True by (destruct Hd; congruence). simpl. now rewrite IH.
    + rewrite decide_False; [exact IH|].
      intros Hne. apply Hd. split; [discriminate | congruence].
  - rewrite decide_False; [exact IH|].
    rewrite dimmed_cardFor. tauto.
Qed.

Lemma filter_other_titles_all (t : string) (l : list SpotlightItem) :
  t ∉ title <$> l -> filter (fun it => title it <> t) l = l.
Proof.
  induction l as [|a l IH]; [reflexivity|].
  rewrite fmap_cons, not_elem_of_cons. intros [Ha Hl].
  rewrite filter_cons, decide_True by congruence. now rewrite IH.
Qed.

Lemma filter_other_titles_NoDup (t : string) (l : list SpotlightItem) :
  NoDup (title <$> l) -> t ∈ title <$> l ->
  S (length (filter (fun it => title it <> t) l)) = length l.
Proof.
  induction l as [|a l IH]; [intros _ Hin; inversion Hin|].
  rewrite fmap_cons, NoDup_cons, elem_of_cons. intros [Ha Hnd] Hin.
  rewrite filter_cons. destruct (decide (title a <> t)) as [Hne|Heq].
  - simpl. f_equal. apply IH; [exact Hnd|].
    destruct Hin as [->|Hin]; [done | exact Hin].
  - assert (title a = t) as <- by (destruct (decide (title a = t)); tauto).
    now rewrite filter_other_titles_all.
Qed.

(** X13. The number of dimmed cards.  With nothing hovered it is zero; with
    a title hovered it is the number of items with another title.  When the
    titles are unique and the hovered title is an item's, all cards but one
    are dimmed. *)
Theorem dimmed_count (props : SpotlightCardsProps) (w : World) :
  let its := default DEFAULT_ITEMS (items props) in
  let n := length (filter (fun el => dimmed (cardProps el) = true)
                     (grid (SpotlightCards cn props w))) in
  n = match hoveredTitle w with
      | Some t => length (filter (fun it => title it <> t) its)
      | None => 0%nat
      end /\
  (NoDup (title <$> its) ->
   forall it, it ∈ its -> hoveredTitle w = Some (title it) ->
     S n = length its).
Proof.
  intros its n. subst n. rewrite grid_eq, dimmed_count_cardFor. split; [reflexivity|].
  intros Hnd it Hit ->. apply filter_other_titles_NoDup; [exact Hnd|].
  now apply list_elem_of_fmap_2.
Qed.

(** X14. Leaving a card lays it flat: the state that pointer leave writes
    maps to a target rotation of zero on both axes, as does every state at
    rest. *)
Theorem leave_lays_card_flat (props : SpotlightCardsProps) (w : World)
    (slot : nat) (it : SpotlightItem) (c : CardState) :
  default DEFAULT_ITEMS (items props) !! slot = Some it ->
  cards w !! slot = Some c ->
  (exists c', cards (dispatch cn props (MouseLeave slot) w) !! slot = Some c' /\
              at_rest c' /\
              (rawRotateX c' === Num 0)%num = true /\
              (rawRotateY c' === Num 0)%num = true) /\
  (forall c0, at_rest c0 ->
     (rawRotateX c0 === Num 0)%num = true /\ (rawRotateY c0 === Num 0)%num = true).
Proof.
  intros Hit Hc.
  assert (Hflat : forall c0, at_rest c0 ->
            (rawRotateX c0 === Num 0)%num = true /\
            (rawRotateY c0 === Num 0)%num = true).
  { intros c0 (Hx & Hy & _). unfold rawRotateX, rawRotateY. rewrite Hx, Hy.
    split; reflexivity. }
  split; [|exact Hflat].
  rewrite dispatch_MouseLeave, Hit. cbn [cards].
  rewrite list_lookup_alter_eq, Hc. cbn [fmap option_fmap option_map].
  eexists; split; [reflexivity|].
  assert (Hrest : at_rest (rested c)) by (repeat split).
  split; [exact Hrest|]. now apply Hflat.
Qed.

End Interaction.

(** ** The tilt for coordinates outside the unit interval *)

Lemma Qle_bool_false (x y : Q) : Qle_bool x y = false -> y < x.
Proof.
  intros H. apply Qnot_le_lt. intros Hle. apply Qle_bool_iff in Hle. congruence.
Qed.

(** Clamping to the unit interval is monotone. *)
Lemma clamp_mono (v1 v2 : number) :
  (v1 <=? v2)%num = true ->
  exists q1 q2,
    clamp (Num 0) (Num 1) v1 = Num q1 /\ clamp (Num 0) (Num 1) v2 = Num q2 /\
    0 <= q1 /\ q1 <= q2 /\ q2 <= 1.
Proof.
  intros Hle.
  assert (H1 : v1 <> NaN) by (intros ->; discriminate).
  assert (H2 : v2 <> NaN) by (intros ->; destruct v1; discriminate).
  destruct (clamp_unit_range v1 H1) as (q1 & E1 & L1 & U1).
  destruct (clamp_unit_range v2 H2) as (q2 & E2 & L2 & U2).
  exists q1, q2. repeat (split; [assumption|]). split; [|assumption].
  destruct v1 as [a | [|] |], v2 as [b | [|] |]; simpl in Hle;
    try discriminate; try congruence.
  - apply Qle_bool_iff in Hle. revert E1 E2.
    unfold clamp, ngt, nlt, Qlt_bool.
    destruct (Qle_bool a 1) eqn:Ha1, (Qle_bool 0 a) eqn:Ha0,
             (Qle_bool b 1) eqn:Hb1, (Qle_bool 0 b) eqn:Hb0; simpl;
      intros [= <-] [= <-];
      repeat match goal with
             | H : Qle_bool _ _ = true |- _ => apply Qle_bool_iff in H
             | H : Qle_bool _ _ = false |- _ => apply Qle_bool_false in H
             end; lra.
  - injection E2 as <-. exact U1.
  - injection E1 as <-. exact L2.
  - injection E1 as <-. exact L2.
  - injection E1 as <-. exact L2.
  - injection E2 as <-. exact U1.
Qed.

(** X15. The tilt is bounded for every coordinate but NaN, inside the
    card's box or not: whatever finite or infinite values the two motion
    values hold, both target rotations lie in [-TILT_MAX, +TILT_MAX]. *)
Theorem tilt_bounded_unless_NaN (c : CardState) :
  normX c <> NaN -> normY c <> NaN ->
  between (- TILT_MAX)%num TILT_MAX (rawRotateX c) /\
  between (- TILT_MAX)%num TILT_MAX (rawRotateY c).
Proof.
  intros Hx Hy. split.
  - apply (tilt_clamped (normY c) Hy).
  - apply (tilt_clamped (normX c) Hx).
Qed.

(** X16. The tilt saturates.  A coordinate of 1 or more gives exactly the
    rotation of the far edge and a coordinate of 0 or less that of the near
    edge: x >= 1 turns the card by +TILT_MAX about the y-axis and x <= 0 by
    -TILT_MAX; y >= 1 turns it by -TILT_MAX about the x-axis and y <= 0 by
    +TILT_MAX. *)
Theorem tilt_saturates (c : CardState) :
  ((Num 1 <=? normX c)%num = true -> (rawRotateY c === TILT_MAX)%num = true) /\
  ((normX c <=? Num 0)%num = true -> (rawRotateY c === - TILT_MAX)%num = true) /\
  ((Num 1 <=? normY c)%num = true -> (rawRotateX c === - TILT_MAX)%num = true) /\
  ((normY c <=? Num 0)%num = true -> (rawRotateX c === TILT_MAX)%num = true).
Proof.
  assert (Hhi : forall v a b, (Num 1 <=? v)%num = true ->
            (useTransform v (Num 0, Num 1) (Num a, Num b) === Num b)%num = true).
  { intros v a b Hv. destruct (clamp_mono _ _ Hv) as (q1 & q2 & E1 & E2 & L & M & U).
    rewrite clamp_unit in E1 by lra. injection E1 as <-.
    unfold useTransform. rewrite E2.
    destruct (interpolate_unit q2 a b) as (r & -> & Hr).
    apply Qeq_bool_iff. rewrite Hr. assert (q2 == 1) as -> by lra. ring. }
  assert (Hlo : forall v a b, (v <=? Num 0)%num = true ->
            (useTransform v (Num 0, Num 1) (Num a, Num b) === Num a)%num = true).
  { intros v a b Hv. destruct (clamp_mono _ _ Hv) as (q1 & q2 & E1 & E2 & L & M & U).
    rewrite clamp_unit in E2 by lra. injection E2 as <-.
    unfold useTransform. rewrite E1.
    destruct (interpolate_unit q1 a b) as (r & -> & Hr).
    apply Qeq_bool_iff. rewrite Hr. assert (q1 == 0) as -> by lra. ring. }
  unfold rawRotateX, rawRotateY, TILT_MAX. cbn [nneg]. repeat split; intros H.
  - now apply Hhi.
  - now apply Hlo.
  - now apply Hhi.
  - now apply Hlo.
Qed.

(** X17. The tilt follows the pointer.  The rotation about the y-axis never
    decreases as x grows and the rotation about the x-axis never increases
    as y grows, over all comparable coordinates, infinite ones included. *)
Theorem tilt_follows_pointer (c1 c2 : CardState) :
  ((normX c1 <=? normX c2)%num = true ->
   (rawRotateY c1 <=? rawRotateY c2)%num = true) /\
  ((normY c1 <=? normY c2)%num = true ->
   (rawRotateX c2 <=? rawRotateX c1)%num = true).
Proof.
  unfold rawRotateX, rawRotateY, useTransform, TILT_MAX. cbn [nneg].
  split; intros H;
    destruct (clamp_mono _ _ H) as (q1 & q2 & -> & -> & L & M & U).
  - destruct (interpolate_unit q1 (Qopp 9) 9) as (r1 & -> & Hr1).
    destruct (interpolate_unit q2 (Qopp 9) 9) as (r2 & -> & Hr2).
    apply Qle_bool_iff. rewrite Hr1, Hr2. lra.
  - destruct (interpolate_unit q1 9 (Qopp 9)) as (r1 & -> & Hr1).
    destruct (interpolate_unit q2 9 (Qopp 9)) as (r2 & -> & Hr2).
    apply Qle_bool_iff. rewrite Hr1, Hr2. lra.
Qed.

(** ** A collapsed bounding box *)

Lemma Qneg_bool_lt (q : Q) : Qneg_bool q = true <-> q < 0.
Proof.
  unfold Qneg_bool, Qlt. simpl. rewrite Z.ltb_lt, Z.mul_1_r. reflexivity.
Qed.

Lemma ndiv_by_zero (a z : Q) :
  z == 0 ->
  (Num a / Num z)%num =
  if Qeq_bool a 0 then NaN else Infinity (Qneg_bool a).
Proof.
  intros Hz. unfold ndiv. now rewrite (Qeq_eq_bool _ _ Hz).
Qed.

Lemma normalize_by_zero (x l z : Q) :
  z == 0 ->
  let v := ((Num x - Num l) / Num z)%num in
  isFinite v = false /\
  (x == l -> v = NaN) /\
  (l < x -> v = Infinity false) /\
  (x < l -> v = Infinity true).
Proof.
  intros Hz v. subst v. unfold nsub, nadd, nneg. rewrite (ndiv_by_zero _ _ Hz).
  destruct (Qeq_bool (x + - l) 0) eqn:Heq.
  - apply Qeq_bool_iff in Heq. split; [reflexivity|].
    split; [reflexivity|]. split; intros; lra.
  - apply Qeq_bool_neq in Heq. split; [reflexivity|].
    split; [intros; lra|].
    destruct (Qneg_bool (x + - l)) eqn:Hneg.
    + apply Qneg_bool_lt in Hneg. split; [intros; lra | reflexivity].
    + split; [reflexivity|]. intros Hlt. exfalso.
      assert (Hn : Qneg_bool (x + - l) = true) by (apply Qneg_bool_lt; lra).
      congruence.
Qed.

(** X18. The move handler does not guard against a collapsed element.  When
    the bounding box has zero width and zero height, a pointer move stores
    coordinates that are not finite: NaN on an axis where the pointer is at
    the box's origin, +Infinity where it is past it and -Infinity where it
    is before it. *)
Theorem collapsed_box_not_finite (w : World) (slot : nat) (c : CardState)
    (el : HTMLDivElement) (x y l t wd ht : Q) :
  cards w !! slot = Some c ->
  cardRef c = Some el ->
  getBoundingClientRect el =
    {| left := Num l; top := Num t; width := Num wd; height := Num ht |} ->
  wd == 0 -> ht == 0 ->
  exists c',
    cards (exec (handleMouseMove slot {| clientX := Num x; clientY := Num y |}) w)
      !! slot = Some c' /\
    isFinite (normX c') = false /\ isFinite (normY c') = false /\
    (x == l -> normX c' = NaN) /\
    (l < x -> normX c' = Infinity false) /\
    (x < l -> normX c' = Infinity true) /\
    (y == t -> normY c' = NaN) /\
    (t < y -> normY c' = Infinity false) /\
    (y < t -> normY c' = Infinity true).
Proof.
  intros Hc Href Hrect Hwd Hht.
  assert (Hel : cards w !! slot ≫= cardRef = Some el) by now rewrite Hc.
  rewrite (handleMouseMove_attached _ _ _ _ Hel), Hrect.
  cbn [cards left top width height clientX clientY].
  rewrite !list_lookup_alter_eq, Hc. cbn [fmap option_fmap option_map].
  eexists; split; [reflexivity|]. cbn [normX normY set_normX set_normY].
  destruct (normalize_by_zero x l wd Hwd) as (Fx & Ex & Px & Nx).
  destruct (normalize_by_zero y t ht Hht) as (Fy & Ey & Py & Ny).
  auto 10.
Qed.

(** ** The further properties on concrete inputs *)

Lemma last_enter_decides_dimming_witness :
  exists el,
    grid (SpotlightCards join_classes twins
            (dispatch join_classes twins (MouseEnter 2) (mount twins)))
      !! 0%nat = Some el /\
    dimmed (cardProps el) = true.
Proof.
  eexists. split; [reflexivity|].
  erewrite last_enter_decides_dimming
    with (cn := join_classes) (props := twins) (w := mount twins) (slot := 2%nat);
    cycle 1.
  - reflexivity.
  - eapply list_elem_of_lookup_2 with (i := 0%nat). reflexivity.
  - reflexivity.
Defined.

Lemma leave_undims_all_witness :
  exists el,
    grid (SpotlightCards join_classes no_props
            (dispatch join_classes no_props (MouseLeave 1) over_second_card))
      !! 0%nat = Some el /\
    dimmed (cardProps el) = false.
Proof.
  eexists. split; [reflexivity|].
  eapply leave_undims_all
    with (cn := join_classes) (props := no_props) (w := over_second_card)
         (slot := 1%nat).
  - reflexivity.
  - eapply list_elem_of_lookup_2 with (i := 0%nat). reflexivity.
Defined.

Lemma card_visuals_witness :
  exists card,
    cardAt join_classes no_props over_second_card 0 = Some card /\
    (animate_scale card, animate_opacity card) = (Num 0.96, Num 0.5).
Proof.
  eexists. split; [reflexivity|].
  edestruct (card_visuals join_classes no_props over_second_card 0)
    as (it & Hit & _ & _ & Hv); [reflexivity|].
  injection Hit as <-. exact Hv.
Defined.

Lemma glow_is_off_or_on_witness :
  let c := {| cardRef := Some box; normX := Num 0.25; normY := Num (25 # 50);
              glowOpacity := Num 1 |} in
  glowOpacity c = Num 0 \/ glowOpacity c = Num 1.
Proof.
  intros c.
  apply (glow_is_off_or_on join_classes no_props
           [RefAttach 1 (Some box); MouseEnter 1;
            MouseMove 1 {| clientX := Num 35; clientY := Num 45 |}] 1 c).
  reflexivity.
Defined.

Lemma nothing_moves_before_attach_witness :
  layoutReads
    (run join_classes no_props
       [MouseEnter 0; MouseMove 0 {| clientX := Num 35; clientY := Num 45 |};
        MouseLeave 0; MouseMove 2 {| clientX := Num 1; clientY := Num 2 |}]
       (mount no_props)) = 0%nat.
Proof.
  apply (nothing_moves_before_attach join_classes no_props).
  repeat constructor.
Defined.

Lemma hover_gesture_round_trip_witness :
  let w := run join_classes no_props [RefAttach 1 (Some box)] (mount no_props) in
  run join_classes no_props
    (gesture 1 [ {| clientX := Num 35; clientY := Num 45 |};
                 {| clientX := Num 70; clientY := Num 30 |} ]) w
  = {| hoveredTitle := None; cards := cards w; layoutReads := 2 |}.
Proof.
  intros w.
  apply (hover_gesture_round_trip join_classes no_props w 1
           [ {| clientX := Num 35; clientY := Num 45 |};
             {| clientX := Num 70; clientY := Num 30 |} ]
           {| cardRef := Some box; normX := Num 0.5; normY := Num 0.5;
              glowOpacity := Num 0 |}).
  - reflexivity.
  - repeat split.
  - reflexivity.
Defined.

Lemma leave_lays_card_flat_witness :
  exists c',
    cards (dispatch join_classes no_props (MouseLeave 1) over_second_card)
      !! 1%nat = Some c' /\
    (rawRotateX c' === Num 0)%num = true /\
    (rawRotateY c' === Num 0)%num = true.
Proof.
  edestruct (leave_lays_card_flat join_classes no_props over_second_card 1)
    as [(c' & Hc' & _ & Hx & Hy) _].
  - reflexivity.
  - reflexivity.
  - exists c'. split; [exact Hc' | split; [exact Hx | exact Hy]].
Defined.

Lemma tilt_bounded_unless_NaN_witness :
  let c := {| cardRef := None; normX := Num 3.5; normY := Infinity true;
              glowOpacity := Num 1 |} in
  between (- TILT_MAX)%num TILT_MAX (rawRotateX c) /\
  between (- TILT_MAX)%num TILT_MAX (rawRotateY c).
Proof.
  intros c. apply (tilt_bounded_unless_NaN c); discriminate.
Defined.

Lemma collapsed_box_not_finite_witness :
  let el := {| getBoundingClientRect :=
                 {| left := Num 10; top := Num 20; width := Num 0;
                    height := Num 0 |} |} in
  let w := run join_classes no_props [RefAttach 0 (Some el)] (mount no_props) in
  exists c',
    cards (exec (handleMouseMove 0 {| clientX := Num 10; clientY := Num 25 |}) w)
      !! 0%nat = Some c' /\
    normX c' = NaN /\ normY c' = Infinity false.
Proof.
  intros el w.
  edestruct collapsed_box_not_finite
    with (w := w) (slot := 0%nat) (el := el)
         (x := 10) (y := 25) (l := 10) (t := 20) (wd := 0) (ht := 0)
    as (c' & Hc' & _ & _ & Hx & _ & _ & _ & Hy & _).
  - reflexivity.
  - reflexivity.
  - reflexivity.
  - reflexivity.
  - reflexivity.
  - exists c'. split; [exact Hc'|]. split; [apply Hx | apply Hy]; reflexivity.
Defined.

Lemma pointer_inside_tilt_bounded_witness :
  exists c',
    cards (exec (handleMouseMove 1 {| clientX := Num 70; clientY := Num 30 |})
             over_second_card) !! 1%nat = Some c' /\
    between (- TILT_MAX)%num TILT_MAX (rawRotateX c') /\
    between (- TILT_MAX)%num TILT_MAX (rawRotateY c').
Proof.
  edestruct pointer_inside_tilt_bounded
    with (w := over_second_card) (slot := 1%nat) (el := box)
         (x := 70) (y := 30) (l := 10) (t := 20) (wd := 100) (ht := 50)
    as (c' & Hc' & _ & _ & Hx & Hy).
  - reflexivity.
  - reflexivity.
  - reflexivity.
  - reflexivity.
  - reflexivity.
  - split; discriminate.
  - split; discriminate.
  - exists c'. split; [exact Hc' | split; [exact Hx | exact Hy]].
Defined.

